(** * elmongo: field selection, search targets and url options

    A shallow embedding of [lib/elmongo.js].  The JavaScript values the
    file inspects are an inductive type, an object is the list of its own
    enumerable properties in enumeration order, and a computation that can
    raise a [TypeError] returns a [result]. *)

From Stdlib Require Import Ascii String List ZArith Bool.
Import ListNotations.
Local Open Scope list_scope.
Local Open Scope string_scope.

Local Set Warnings "-register-all".

(** ** Results of computations that may throw *)

Inductive exn : Type :=
| TypeError.

Inductive result (A : Type) : Type :=
| Ok (a : A)
| Throw (e : exn).

Arguments Ok {A} a.
Arguments Throw {A} e.

Definition bind {A B : Type} (c : result A) (k : A -> result B) : result B :=
  match c with
  | Ok a => k a
  | Throw e => Throw e
  end.

Declare Scope js_scope.
Delimit Scope js_scope with js.
Notation "x <- c ;; k" := (bind c (fun x => k))
  (at level 100, c at next level, right associativity) : js_scope.
Local Open Scope js_scope.

(** [Array.prototype.forEach] with the captured variable the callback
    assigns to threaded through as [s]. *)
Fixpoint forEach {S K : Type} (f : S -> K -> result S) (keys : list K) (s : S)
  : result S :=
  match keys with
  | [] => Ok s
  | key :: rest => s' <- f s key ;; forEach f rest s'
  end.

(** ** JavaScript values

    An array is an object whose own enumerable keys are its indices:
    [typeof], [Object.keys] and property reads do not tell the two apart,
    so an array is written as a [VObject] with keys "0", "1", ...
    Of a number only its being zero or not is looked at; numbers are
    integers here. *)

Inductive value : Type :=
| VUndefined
| VNull
| VBool (b : bool)
| VNumber (n : Z)
| VString (s : string)
| VFunction (props : list (string * value))
| VObject (props : list (string * value)).

(** Own enumerable properties, in enumeration order. *)
Definition object : Type := list (string * value).

Fixpoint lookup {A : Type} (k : string) (o : list (string * A)) : option A :=
  match o with
  | [] => None
  | (k', v) :: rest => if String.eqb k k' then Some v else lookup k rest
  end.

Definition typeof (v : value) : string :=
  match v with
  | VUndefined => "undefined"
  | VNull => "object"
  | VBool _ => "boolean"
  | VNumber _ => "number"
  | VString _ => "string"
  | VFunction _ => "function"
  | VObject _ => "object"
  end.

(** ToBoolean. *)
Definition truthy (v : value) : bool :=
  match v with
  | VUndefined | VNull => false
  | VBool b => b
  | VNumber n => negb (Z.eqb n 0)
  | VString s => negb (String.eqb s "")
  | VFunction _ | VObject _ => true
  end.

(** [o[k]] for an object given by its properties. *)
Definition prop (o : object) (k : string) : value :=
  match lookup k o with
  | Some v => v
  | None => VUndefined
  end.

(** [v.es_no_index]: a property read throws on [undefined] and [null];
    booleans, numbers and strings have no property of that name. *)
Definition es_no_index (v : value) : result value :=
  match v with
  | VUndefined | VNull => Throw TypeError
  | VBool _ | VNumber _ | VString _ => Ok VUndefined
  | VFunction props | VObject props => Ok (prop props "es_no_index")
  end.

(** [Object.keys(v)] and [v[key]], for [v] of type 'object' that passed
    the read of [v.es_no_index], that is, a [VObject]. *)
Definition Object_keys (v : value) : list string :=
  match v with
  | VFunction props | VObject props => map fst props
  | _ => []
  end.

Definition member (v : value) (key : string) : value :=
  match v with
  | VFunction props | VObject props => prop props key
  | _ => VUndefined
  end.

(** ** getIndexedFields (lines 185-208) *)

(** The callback of [keys.forEach] (lines 192-196); [found] is the
    captured [foundDontIndex]. *)
Definition markDontIndex (decl : value) (found : bool) (key : string)
  : result bool :=
  flag <- es_no_index (member decl key) ;;
  Ok (if truthy flag then true else found).

(** The body of the [for ... in] loop (lines 188-204). *)
Definition visitField (tree : object) (indexedFields : list string) (k : string)
  : result (list string) :=
  let decl := prop tree k in
  inspectKeys <-
    (if String.eqb (typeof decl) "object"
     then flag <- es_no_index decl ;; Ok (negb (truthy flag))
     else Ok false) ;;
  if inspectKeys then
    foundDontIndex <- forEach (markDontIndex decl) (Object_keys decl) false ;;
    Ok (if negb foundDontIndex then (indexedFields ++ [k])%list else indexedFields)
  else
    flag <- es_no_index decl ;;
    Ok (if negb (truthy flag) then (indexedFields ++ [k])%list else indexedFields).

(** [tree] is [schema.tree]; [for (var k in schema.tree)] visits its keys
    in enumeration order. *)
Definition getIndexedFields (tree : object) : result (list string) :=
  forEach (visitField tree) (map fst tree) [].

(** ** Url options

    The objects passed to [elmongo.search.config] and kept in
    [elasticUrlOptions]: own properties (host, port, prefix, ...) whose
    values are strings; a numeric port is carried as its decimal text.  A
    key that is absent reads as [undefined], written [None]. *)

Definition options : Type := list (string * string).

(** [a || b] on values that are a string or [undefined]: the empty string
    and [undefined] are falsy. *)
Definition or_else (a b : option string) : option string :=
  match a with
  | Some s => if String.eqb s "" then b else Some s
  | None => b
  end.

(** ToBoolean of [o[k]], keeping the value when it is truthy. *)
Definition given (o : options) (k : string) : option string :=
  or_else (lookup k o) None.

(** [o[k] = v] for a key [o] already has: the property keeps its place. *)
Fixpoint assign (k : string) (v : string) (o : options) : options :=
  match o with
  | [] => [(k, v)]
  | (k', v') :: rest =>
      if String.eqb k k' then (k', v) :: rest else (k', v') :: assign k v rest
  end.

(** [s + o[k]]: string concatenation prints a missing value as "undefined". *)
Definition field (o : options) (k : string) : string :=
  match lookup k o with
  | Some s => s
  | None => "undefined"
  end.

(** The options object of one model: the url options and the
    [indexedFields] array the plugin stores on it. *)
Record modelOptions : Type := {
  url : options;
  indexedFields : option (list string)
}.

(** The argument [searchOpts]: [collections] is a list of collection
    names or absent ([None]); the other keys are not read here. *)
Record searchOpts : Type := {
  collections : option (list string);
  others : options
}.

(** ** The required modules

    [lib/helpers.js] and [util] are not among the sources.  The helpers
    whose results the code only passes on are the fields of a class:
    [doc] is the receiver [this] (the model in a static, the document in
    a method or hook), [error] the error a request calls back with.
    [mergeOptions] and [mergeModelOptions] return a new object computed
    from the contents of their arguments, and no helper changes an object
    it is given. *)
Class Helpers : Type := {
  doc : Type;
  error : Type;
  json : Type;
  mergeOptions : option options -> options;
  mergeModelOptions : option modelOptions -> doc -> modelOptions;
  serializeModel : doc -> option (list string) -> json;
  JSON_stringify : json -> string;
  makeDocumentUri : modelOptions -> doc -> string;
  inspect : error -> string
}.

(** Modelled from the spec: [helpers.makeDomainUri] is in lib/helpers.js,
    which is missing; the spec writes the address of the search service
    as [{host}:{port}]. *)
Definition makeDomainUri (o : options) : string :=
  field o "host" ++ ":" ++ field o "port".

(** Modelled from the spec: [helpers.makeTypeUri] is in lib/helpers.js,
    which is missing; the spec addresses one collection as
    [{host}:{port}/{index}/{type}]. *)
Definition makeTypeUri (o : modelOptions) : string :=
  makeDomainUri (url o) ++ "/" ++ field (url o) "index" ++ "/" ++ field (url o) "type".

Definition searchSuffix : string :=
  "/_search?search_type=dfs_query_then_fetch&preference=_primary_first".

(** The arguments [helpers.doSearchAndNormalizeResults] is called with. *)
Record searchRequest : Type := {
  searchUri : string;
  searchArg : searchOpts
}.

(** ** elmongo.search (lines 68-101) *)

(** Lines 73-96: the local [collections] and [searchOpts] after the
    branches; [prefix] is [elasticUrlOptions.prefix]. *)
Definition resolveCollections (prefix : option string) (so : searchOpts)
  : option (list string) * searchOpts :=
  match or_else prefix None with
  | Some p =>
      match collections so with
      | Some (c :: cs) =>
          (Some (map (fun collection => p ++ "-" ++ collection) (c :: cs)), so)
      | _ => (Some [p ++ "*"], so)
      end
  | None =>
      match collections so with
      | None =>
          (None, {| collections := Some ["_all"]; others := others so |})
      | Some l => (Some l, so)
      end
  end.

(** [collections.join(',')]: a read of [join] on [undefined] throws. *)
Definition join (collections : option (list string)) : result string :=
  match collections with
  | Some l => Ok (String.concat "," l)
  | None => Throw TypeError
  end.

Section Gateway.
Context {H : Helpers}.

(** The new value of [elasticUrlOptions] and the call made, if any. *)
Definition search (so : searchOpts) (elasticUrlOptions : option options)
  : option options * result searchRequest :=
  let elasticUrlOptions' := mergeOptions elasticUrlOptions in
  let '(collections, so') :=
    resolveCollections (lookup "prefix" elasticUrlOptions') so in
  (Some elasticUrlOptions',
   target <- join collections ;;
   Ok {| searchUri := makeDomainUri elasticUrlOptions' ++ "/" ++ target ++ searchSuffix;
         searchArg := so' |}).

(** ** elmongo.search.config (lines 108-119) *)

(** The callback of [forEach] (line 114); [key] is an own key of [cur]. *)
Definition overwrite (opts : options) (cur : options) (key : string) : options :=
  match or_else (lookup key opts) (lookup key cur) with
  | Some v => assign key v cur
  | None => cur
  end.

(** The new value of [elasticUrlOptions].  The loop updates the object
    the variable held so far; line 118 then binds the variable to the
    object [mergeOptions] makes from [opts]. *)
Definition config (opts : options) (elasticUrlOptions : option options)
  : option options :=
  let updated :=
    match elasticUrlOptions with
    | Some cur => Some (fold_left (overwrite opts) (map fst cur) cur)
    | None => None
    end in
  let elasticUrlOptions' := mergeOptions (Some opts) in
  Some elasticUrlOptions'.
End Gateway.

(** ** index and unindex (lines 126-182) *)

Section Plugin.
Context {H : Helpers}.

(** The error built in a failure callback: [new Error(message)] with
    the cause stored under [details]. *)
Record wrappedError : Type := {
  message : string;
  details : error
}.

Inductive payload : Type :=
| PError (e : wrappedError)
| PBody (body : string).

(** A call [self.emit(name, payload)]. *)
Inductive notification : Type :=
| Emit (self : doc) (name : string) (p : payload).


Record reqOpts : Type := {
  method : string;
  reqUrl : string;
  reqBody : option string
}.

(** A listener registered on a document: called with the payload, it
    returns normally ([None]) or throws ([Some] of what it throws). *)
Definition listener : Type := payload -> option string.

(** The listeners of one document by event name, in the order they were
    registered. *)
Definition listeners : Type := string -> list listener.

(** What a call of [emit] can raise: ['error'] emitted on a document
    without a listener for it throws the payload; a listener that throws
    ends the call with what it threw. *)
Inductive exception : Type :=
| Unhandled (p : payload)
| FromListener (x : string).

(** The calls of [emit] a callback made and the exception it ended with,
    if any. *)
Record outcome : Type := {
  emitted : list notification;
  raised : option exception
}.

(** The listeners are called in order, up to the first that throws. *)
Fixpoint callAll (ls : list listener) (p : payload) : option exception :=
  match ls with
  | [] => None
  | l :: rest =>
      match l p with
      | Some x => Some (FromListener x)
      | None => callAll rest p
      end
  end.

(** [self.emit(name, p)] of an [EventEmitter] whose listeners are [ls]. *)
Definition emit (ls : listeners) (self : doc) (name : string) (p : payload)
  : outcome :=
  {| emitted := [Emit self name p];
     raised :=
       match ls name with
       | [] => if String.eqb name "error" then Some (Unhandled p) else None
       | l :: rest => callAll (l :: rest) p
       end |}.

(** The callback handed to [helpers.backOffRequest]: from the listeners
    the document has when it runs, [err] (a falsy [err] is [None]) and
    [body] to what it emits and raises. *)
Definition callback : Type := listeners -> option error -> string -> outcome.

(** Lines 141-151. *)
Definition indexed (self : doc) : callback :=
  fun ls err body =>
    match err with
    | Some e =>
        let error :=
          {| message := "Elasticsearch document indexing error: " ++ inspect e;
             details := e |} in
        emit ls self "error" (PError error)
    | None => emit ls self "elmongo-indexed" (PBody body)
    end.


(** [index]: the two arguments of [helpers.backOffRequest]. *)
Definition index (this : doc) (opts : modelOptions) : reqOpts * callback :=
  let esearchDoc := serializeModel this (indexedFields opts) in
  let indexUri := makeDocumentUri opts this in
  ({| method := "PUT"; reqUrl := indexUri;
      reqBody := Some (JSON_stringify esearchDoc) |},
   indexed this).


(** ** The plugin (lines 20-61) *)

(** The variables the functions attached by [elmongo(schema, options)]
    close over.  [schema] is the schema object, which its owner may
    still change; [options] is reassigned by every call. *)
Record closure : Type := {
  cl_schema : object;
  cl_options : option modelOptions;
  cl_indexedFields : list string
}.

Definition elmongo (schema : object) (opts : option modelOptions)
  : result closure :=
  indexedFields <- getIndexedFields schema ;;
  Ok {| cl_schema := schema; cl_options := opts;
        cl_indexedFields := indexedFields |}.

(** The call an attached function ends with, besides reassigning
    [options]: [sync.call(this, schema, options, cb)],
    [helpers.doSearchAndNormalizeResults], [this.index(options)] or
    [this.unindex(options)]. *)
Inductive effect : Type :=
| SyncCall (this : doc) (schema : object) (opts : modelOptions)
| SearchCall (r : searchRequest)
| IndexCall (this : doc) (opts : modelOptions)
| UnindexCall (this : doc) (opts : modelOptions)
| NoCall.

Definition withOptions (cl : closure) (opts : modelOptions) : closure :=
  {| cl_schema := cl_schema cl; cl_options := Some opts;
     cl_indexedFields := cl_indexedFields cl |}.

(** [options.indexedFields = indexedFields]. *)
Definition setIndexedFields (opts : modelOptions) (fields : list string)
  : modelOptions :=
  {| url := url opts; indexedFields := Some fields |}.

(** [schema.statics.sync] (lines 28-33). *)
Definition statics_sync (cl : closure) (this : doc) : closure * effect :=
  let opts := mergeModelOptions (cl_options cl) this in
  let opts := setIndexedFields opts (cl_indexedFields cl) in
  (withOptions cl opts, SyncCall this (cl_schema cl) opts).

(** [schema.statics.search] (lines 35-41). *)
Definition statics_search (cl : closure) (this : doc) (so : searchOpts)
  : closure * effect :=
  let opts := mergeModelOptions (cl_options cl) this in
  let searchUri := makeTypeUri opts ++ searchSuffix in
  (withOptions cl opts,
   SearchCall {| searchUri := searchUri; searchArg := so |}).

(** The [post('save')] hook (lines 44-48). *)
Definition post_save (cl : closure) (this : doc) : closure * effect :=
  let opts := mergeModelOptions (cl_options cl) this in
  let opts := setIndexedFields opts (cl_indexedFields cl) in
  (withOptions cl opts, IndexCall this opts).

(** The [post('remove')] hook (lines 49-52). *)
Definition post_remove (cl : closure) (this : doc) : closure * effect :=
  let opts := mergeModelOptions (cl_options cl) this in
  (withOptions cl opts, UnindexCall this opts).

(** [schema.methods.deleteFromIndex] (lines 56-59). *)
Definition deleteFromIndex (cl : closure) (this : doc) : closure * effect :=
  let opts := mergeModelOptions (cl_options cl) this in
  (withOptions cl opts, UnindexCall this opts).

(** What happens to an attached schema: its statics, methods and hooks
    run, and its owner may change the schema's tree. *)
Inductive event : Type :=
| Synced (this : doc)
| Searched (this : doc) (so : searchOpts)
| Saved (this : doc)
| Removed (this : doc)
| DeletedFromIndex (this : doc)
| SchemaChanged (tree : object).

Definition step (cl : closure) (ev : event) : closure * effect :=
  match ev with
  | Synced this => statics_sync cl this
  | Searched this so => statics_search cl this so
  | Saved this => post_save cl this
  | Removed this => post_remove cl this
  | DeletedFromIndex this => deleteFromIndex cl this
  | SchemaChanged tree =>
      ({| cl_schema := tree; cl_options := cl_options cl;
          cl_indexedFields := cl_indexedFields cl |}, NoCall)
  end.

(** The effects of a sequence of events, in order. *)
Fixpoint run (cl : closure) (evs : list event) : list (event * effect) :=
  match evs with
  | [] => []
  | ev :: rest => let '(cl', eff) := step cl ev in (ev, eff) :: run cl' rest
  end.

(** A save is answered by [this.index(options)] and a sync by
    [sync.call(this, schema, options, cb)], each with [fields] as
    [options.indexedFields]; [index] serializes the document with them. *)
Definition reusesFields (fields : list string) (ev : event) (eff : effect)
  : Prop :=
  match ev with
  | Saved this =>
      exists opts,
        eff = IndexCall this opts /\
        indexedFields opts = Some fields /\
        reqBody (fst (index this opts)) =
        Some (JSON_stringify (serializeModel this (Some fields)))
  | Synced this =>
      exists schema opts,
        eff = SyncCall this schema opts /\
        indexedFields opts = Some fields
  | _ => True
  end.

End Plugin.

(** ** Notions the statements use *)

(** The declaration carries a truthy [es_no_index]. *)
Definition flagged (v : value) : bool :=
  match es_no_index v with
  | Ok flag => truthy flag
  | Throw _ => false
  end.

(** Neither [undefined] nor [null]. *)
Definition defined (v : value) : bool :=
  match v with
  | VUndefined | VNull => false
  | _ => true
  end.

(** A declaration [getIndexedFields] reads without a [TypeError]: it is
    defined, and when it is an object without the flag, so is the value
    under each of its keys. *)
Definition readable (decl : value) : bool :=
  defined decl &&
  (if String.eqb (typeof decl) "object" && negb (flagged decl)
   then forallb (fun key => defined (member decl key)) (Object_keys decl)
   else true).

Definition schema_ok (tree : object) : bool :=
  forallb (fun k => readable (prop tree k)) (map fst tree).

(** Some key of the declaration holds a flagged value. *)
Definition someKeyFlagged (decl : value) : bool :=
  existsb (fun key => flagged (member decl key)) (Object_keys decl).

(** The fields [getIndexedFields] pushes. *)
Definition selected (decl : value) : bool :=
  negb (flagged decl) &&
  negb (String.eqb (typeof decl) "object" && someKeyFlagged decl).

(** The rule of the field selector as the specification words it: an
    object field is left out exactly when all its sub-keys are flagged. *)
Definition unanimous_rule (tree : object) (k : string) : Prop :=
  forall fields props,
    getIndexedFields tree = Ok fields ->
    lookup k tree = Some (VObject props) ->
    (~ In k fields <->
     forall key, In key (Object_keys (VObject props)) ->
                 flagged (member (VObject props) key) = true).

(** ** Sample inputs *)

Definition String_ctor : value := VFunction [].

(** [{ name: String,
       secret: { type: String, es_no_index: true },
       address: { street: { type: String, es_no_index: true }, city: String } }] *)
Definition person_tree : object :=
  [("name", String_ctor);
   ("secret", VObject [("type", String_ctor); ("es_no_index", VBool true)]);
   ("address",
    VObject [("street", VObject [("type", String_ctor); ("es_no_index", VBool true)]);
             ("city", String_ctor)])].

(** Modelled from the spec: [helpers.mergeOptions] is in lib/helpers.js,
    which is missing.  For each recognised option key a present,
    non-empty value wins, otherwise the built-in value is used; the spec
    does not give the built-in values, so they are an argument. *)
Definition mergeOptionsFrom (builtin : options) (o : option options) : options :=
  flat_map
    (fun key =>
       let own := match o with Some x => lookup key x | None => None end in
       match or_else own (lookup key builtin) with
       | Some v => [(key, v)]
       | None => []
       end)
    ["host"; "port"; "index"; "type"; "prefix"].

(** Built-in values to compute with. *)
Definition builtin : options := [("host", "localhost"); ("port", "9200")].

(** The escape character [util.inspect] starts a colour code with. *)
Definition esc : string := String (Ascii.ascii_of_nat 27) "".

(** An instance of the helpers to evaluate the code with: documents are
    their identifiers, errors and serialized documents are text;
    [inspect] prints a text without quotes in it as [util.inspect] with
    colours does, quoted and green. *)
Definition localHelpers : Helpers :=
  {| doc := string;
     error := string;
     json := string;
     mergeOptions := mergeOptionsFrom builtin;
     mergeModelOptions := fun o _ =>
       {| url := mergeOptionsFrom builtin (option_map url o);
          indexedFields := match o with Some x => indexedFields x | None => None end |};
     serializeModel := fun d fields =>
       match fields with
       | Some l => d ++ ":" ++ String.concat "," l
       | None => d
       end;
     JSON_stringify := fun j => j;
     makeDocumentUri := fun o d => makeTypeUri o ++ "/" ++ d;
     inspect := fun e => esc ++ "[32m'" ++ e ++ "'" ++ esc ++ "[39m" |}.

(** [{ name: String, nick: { type: String, default: null } }] *)
Definition profile_tree : object :=
  [("name", String_ctor);
   ("nick", VObject [("type", String_ctor); ("default", VNull)])].

(** [{ name: String, token: Secret }] where the constructor [Secret]
    has the property [es_no_index = true]. *)
Definition account_tree : object :=
  [("name", String_ctor);
   ("token", VFunction [("es_no_index", VBool true)])].



(** ** The loop of elmongo.search.config *)

(** Lines 110-116, for a stored object [cur]: every own key of [cur] is
    visited in order and overwritten by the callback. *)
Definition overwriteAll (opts cur : options) : options :=
  fold_left (overwrite opts) (map fst cur) cur.

(** [opts[key] || old]. *)
Definition preferred (opts : options) (key old : string) : string :=
  match given opts key with
  | Some v => v
  | None => old
  end.

(** A schema in which neither a declaration nor a sub-key of an object
    declaration carries the flag. *)
Definition flagFree (tree : object) : Prop :=
  forall k decl,
    lookup k tree = Some decl ->
    flagged decl = false /\
    forall props key,
      decl = VObject props -> In key (map fst props) ->
      flagged (prop props key) = false.

(** [{ title: String, tags: [String], meta: { type: Object } }] *)
Definition article_tree : object :=
  [("title", String_ctor);
   ("tags", VObject [("0", String_ctor)]);
   ("meta", VObject [("type", VFunction [])])].

(** ** The closure after a sequence of events *)

Section Runs.
Context {H : Helpers}.

Definition after (cl : closure) (evs : list event) : closure :=
  fold_left (fun c ev => fst (step c ev)) evs cl.

(** The tree the schema object holds after the events: the one of the
    latest change, or [tree] when there was none. *)
Definition lastTree (tree : object) (evs : list event) : object :=
  fold_left (fun t ev => match ev with SchemaChanged t' => t' | _ => t end) evs tree.
End Runs.

(** * Properties *)

(** ** Association lists *)

Lemma lookup_Some_key (A : Type) (k : string) (o : list (string * A)) (v : A) :
  lookup k o = Some v -> In k (map fst o).
Proof.
  induction o as [| [k' v'] rest IH]; simpl; [discriminate |].
  destruct (String.eqb k k') eqn:E.
  - intros _. left. apply String.eqb_eq in E. symmetry; exact E.
  - intros L. right. exact (IH L).
Qed.

Lemma lookup_prop (k : string) (o : object) (v : value) :
  lookup k o = Some v -> prop o k = v.
Proof.
  unfold prop. intros ->. reflexivity.
Qed.

(** ** getIndexedFields as a filter *)



Lemma markDontIndex_spec (decl : value) (found : bool) (key : string) :
  markDontIndex decl found key =
  if defined (member decl key)
  then Ok (found || flagged (member decl key))
  else Throw TypeError.
Proof.
  unfold markDontIndex, flagged.
  destruct (member decl key) as [| | b | n | s | props | props]; simpl;
    try reflexivity;
    try (rewrite orb_false_r; reflexivity);
    match goal with
    | |- context [truthy ?x] => destruct (truthy x), found; reflexivity
    end.
Qed.

Lemma forEach_markDontIndex (decl : value) (keys : list string) :
  forall found,
    forEach (markDontIndex decl) keys found =
    if forallb (fun key => defined (member decl key)) keys
    then Ok (found || existsb (fun key => flagged (member decl key)) keys)
    else Throw TypeError.
Proof.
  induction keys as [| key rest IH]; intros found; simpl.
  - rewrite orb_false_r. reflexivity.
  - rewrite markDontIndex_spec.
    destruct (defined (member decl key)); simpl; [| reflexivity].
    rewrite IH. rewrite orb_assoc. reflexivity.
Qed.

Lemma visitField_spec (tree : object) (acc : list string) (k : string) :
  visitField tree acc k =
  if readable (prop tree k)
  then Ok (acc ++ (if selected (prop tree k) then [k] else []))%list
  else Throw TypeError.
Proof.
  unfold visitField, readable, selected, someKeyFlagged, flagged.
  destruct (prop tree k) as [| | b | n | s | props | props]; simpl;
    try reflexivity;
    try (rewrite app_nil_r; reflexivity).
  - destruct (truthy (prop props "es_no_index")); simpl;
      [rewrite app_nil_r |]; reflexivity.
  - destruct (truthy (prop props "es_no_index")) eqn:Eflag; simpl.
    + rewrite app_nil_r. reflexivity.
    + rewrite forEach_markDontIndex.
      destruct (forallb _ _); simpl; [| reflexivity].
      unfold flagged.
      destruct (existsb _ _); simpl; [rewrite app_nil_r |]; reflexivity.
Qed.

Lemma forEach_visitField (tree : object) (keys : list string) :
  forall acc,
    forEach (visitField tree) keys acc =
    if forallb (fun k => readable (prop tree k)) keys
    then Ok (acc ++ filter (fun k => selected (prop tree k)) keys)%list
    else Throw TypeError.
Proof.
  induction keys as [| k rest IH]; intros acc; simpl.
  - rewrite app_nil_r. reflexivity.
  - rewrite visitField_spec.
    destruct (readable (prop tree k)); simpl; [| reflexivity].
    rewrite IH.
    destruct (forallb _ rest); [| reflexivity].
    rewrite <- app_assoc.
    destruct (selected (prop tree k)); reflexivity.
Qed.

Lemma getIndexedFields_spec (tree : object) :
  getIndexedFields tree =
  if schema_ok tree
  then Ok (filter (fun k => selected (prop tree k)) (map fst tree))
  else Throw TypeError.
Proof.
  unfold getIndexedFields, schema_ok.
  rewrite forEach_visitField. reflexivity.
Qed.

(** [getIndexedFields] returns exactly on the schemas it can read. *)
Lemma getIndexedFields_returns (tree : object) :
  schema_ok tree = true <-> exists fields, getIndexedFields tree = Ok fields.
Proof.
  rewrite getIndexedFields_spec. split.
  - intros ->. eexists; reflexivity.
  - destruct (schema_ok tree); [reflexivity |].
    intros [fields E]; discriminate E.
Qed.

Lemma getIndexedFields_In (tree : object) (fields : list string) (k : string)
      (decl : value) :
  getIndexedFields tree = Ok fields ->
  lookup k tree = Some decl ->
  (In k fields <-> selected decl = true).
Proof.
  rewrite getIndexedFields_spec.
  destruct (schema_ok tree); [| discriminate].
  intros E L. injection E as <-.
  rewrite filter_In, (lookup_prop _ _ _ L).
  split; [intros [_ S]; exact S | intros S; split; [| exact S]].
  exact (lookup_Some_key _ _ _ _ L).
Qed.

Lemma someKeyFlagged_iff (decl : value) :
  someKeyFlagged decl = true <->
  exists key, In key (Object_keys decl) /\ flagged (member decl key) = true.
Proof.
  unfold someKeyFlagged. rewrite existsb_exists. reflexivity.
Qed.

Lemma selected_object (props : list (string * value)) :
  selected (VObject props) = false <->
  flagged (VObject props) = true \/
  exists key, In key (Object_keys (VObject props)) /\
              flagged (member (VObject props) key) = true.
Proof.
  rewrite <- someKeyFlagged_iff. unfold selected. simpl typeof. simpl String.eqb.
  destruct (flagged (VObject props)), (someKeyFlagged (VObject props));
    simpl; intuition congruence.
Qed.

Lemma selected_simple (decl : value) :
  typeof decl <> "object" ->
  (selected decl = false <-> flagged decl = true).
Proof.
  intros T. apply String.eqb_neq in T.
  unfold selected. rewrite T. simpl.
  destruct (flagged decl); simpl; intuition congruence.
Qed.

Lemma not_In_selected (tree : object) (fields : list string) (k : string)
      (decl : value) :
  getIndexedFields tree = Ok fields ->
  lookup k tree = Some decl ->
  (~ In k fields <-> selected decl = false).
Proof.
  intros E L. rewrite (getIndexedFields_In _ _ _ _ E L).
  destruct (selected decl); intuition congruence.
Qed.

(** ** The field selector *)

(** C1, as the code has it: on every schema [getIndexedFields] can read
    it returns a field list, and an object-valued top-level field is
    missing from that list exactly when the field itself is flagged
    [es_no_index] or at least one of its sub-keys is; one flagged sub-key
    is enough, the others need not be flagged. *)
Theorem object_field_excluded_iff_flag_found (tree : object) :
  schema_ok tree = true ->
  exists fields,
    getIndexedFields tree = Ok fields /\
    forall k props,
      lookup k tree = Some (VObject props) ->
      (~ In k fields <->
       flagged (VObject props) = true \/
       exists key, In key (Object_keys (VObject props)) /\
                   flagged (member (VObject props) key) = true).
Proof.
  intros W. apply getIndexedFields_returns in W. destruct W as [fields E].
  exists fields. split; [exact E |].
  intros k props L.
  rewrite (not_In_selected _ _ _ _ E L). apply selected_object.
Qed.

Lemma object_field_excluded_iff_flag_found_witness :
  schema_ok person_tree = true /\
  exists fields,
    getIndexedFields person_tree = Ok fields /\
    forall k props,
      lookup k person_tree = Some (VObject props) ->
      (~ In k fields <->
       flagged (VObject props) = true \/
       exists key, In key (Object_keys (VObject props)) /\
                   flagged (member (VObject props) key) = true).
Proof.
  split; [reflexivity |].
  apply (object_field_excluded_iff_flag_found person_tree). reflexivity.
Defined.

(** C1, as the specification words it, fails: in [person_tree] the field
    [address] is left out although its sub-key [city] is not flagged. *)
Lemma unanimous_rule_fails : ~ unanimous_rule person_tree "address".
Proof.
  intros R.
  destruct (R ["name"] _ eq_refl eq_refl) as [Hall _].
  assert (Hout : ~ In "address" ["name"]).
  { simpl. intros [E | []]. discriminate E. }
  specialize (Hall Hout "city"). simpl in Hall.
  assert (F : false = true) by (apply Hall; right; left; reflexivity).
  discriminate F.
Qed.

(** X11: the empty schema gives the empty field list, and on every
    schema [getIndexedFields] can read, a top-level field whose
    declaration is not of type 'object' is missing from the returned list
    exactly when its declaration is flagged [es_no_index]. *)
Theorem simple_field_excluded_iff_flagged :
  getIndexedFields [] = Ok [] /\
  forall tree,
    schema_ok tree = true ->
    exists fields,
      getIndexedFields tree = Ok fields /\
      forall k decl,
        lookup k tree = Some decl ->
        typeof decl <> "object" ->
        (~ In k fields <-> flagged decl = true).
Proof.
  split; [reflexivity |].
  intros tree W. apply getIndexedFields_returns in W. destruct W as [fields E].
  exists fields. split; [exact E |].
  intros k decl L T.
  rewrite (not_In_selected _ _ _ _ E L). apply selected_simple. exact T.
Qed.

Lemma simple_field_excluded_iff_flagged_witness :
  schema_ok account_tree = true /\
  getIndexedFields account_tree = Ok ["name"] /\
  (~ In "token" ["name"] <->
   flagged (VFunction [("es_no_index", VBool true)]) = true) /\
  (~ In "name" ["name"] <-> flagged String_ctor = true).
Proof.
  split; [reflexivity |]. split; [reflexivity |].
  destruct (proj2 simple_field_excluded_iff_flagged account_tree eq_refl)
    as [fields [E R]].
  injection E as <-.
  split; apply R; try reflexivity; discriminate.
Defined.

(** C6 at the failing input: in [profile_tree] the field [name] is a
    simple field without the flag, yet [getIndexedFields] returns no
    field list at all: reading [es_no_index] of the [null] under
    [nick.default] throws a [TypeError]. *)
Theorem getIndexedFields_null_default_throws :
  lookup "name" profile_tree = Some String_ctor /\
  typeof String_ctor = "function" /\
  flagged String_ctor = false /\
  es_no_index (member (prop profile_tree "nick") "default") = Throw TypeError /\
  getIndexedFields profile_tree = Throw TypeError.
Proof.
  repeat split.
Qed.

(** C10: on every schema [getIndexedFields] can read, an object-valued
    top-level field whose own declaration is flagged [es_no_index] is
    missing from the returned list, whatever its sub-keys hold. *)
Theorem flagged_object_field_excluded (tree : object) :
  schema_ok tree = true ->
  exists fields,
    getIndexedFields tree = Ok fields /\
    forall k props,
      lookup k tree = Some (VObject props) ->
      flagged (VObject props) = true ->
      ~ In k fields.
Proof.
  intros W. apply getIndexedFields_returns in W. destruct W as [fields E].
  exists fields. split; [exact E |].
  intros k props L F.
  apply (not_In_selected _ _ _ _ E L). apply selected_object. left. exact F.
Qed.

Lemma flagged_object_field_excluded_witness :
  schema_ok person_tree = true /\
  exists fields,
    getIndexedFields person_tree = Ok fields /\
    forall k props,
      lookup k person_tree = Some (VObject props) ->
      flagged (VObject props) = true ->
      ~ In k fields.
Proof.
  split; [reflexivity |].
  apply (flagged_object_field_excluded person_tree). reflexivity.
Defined.

(** ** Search targets *)

Lemma append_assoc (a b c : string) : (a ++ b) ++ c = a ++ b ++ c.
Proof.
  induction a as [| ch a IH]; simpl; [reflexivity | rewrite IH; reflexivity].
Qed.


Section SearchFacts.
Context {H : Helpers}.

(** What [search] returns, in terms of the local [collections]. *)
Lemma search_unfold (so : searchOpts) (stored : option options) :
  search so stored =
  (Some (mergeOptions stored),
   match fst (resolveCollections (lookup "prefix" (mergeOptions stored)) so) with
   | Some targets =>
       Ok {| searchUri := makeDomainUri (mergeOptions stored) ++ "/" ++
                          String.concat "," targets ++ searchSuffix;
             searchArg :=
               snd (resolveCollections (lookup "prefix" (mergeOptions stored)) so) |}
   | None => Throw TypeError
   end).
Proof.
  unfold search.
  destruct (resolveCollections _ so) as [[targets |] so']; reflexivity.
Qed.

(** C2 at the failing input: with no prefix configured and
    [collections] absent, ['_all'] is stored on [searchOpts] while the
    local [collections] stays [undefined], and [search] throws a
    [TypeError] instead of building a request. *)
Theorem search_without_collections_throws
        (stored : option options) (rest : options) :
  given (mergeOptions stored) "prefix" = None ->
  resolveCollections (lookup "prefix" (mergeOptions stored))
                     {| collections := None; others := rest |} =
  (None, {| collections := Some ["_all"]; others := rest |}) /\
  search {| collections := None; others := rest |} stored =
  (Some (mergeOptions stored), Throw TypeError).
Proof.
  intros P. rewrite search_unfold.
  unfold resolveCollections. unfold given in P. rewrite P. simpl.
  split; reflexivity.
Qed.

(** C9: with no prefix configured and [collections] a present, empty
    list, the list is kept as it is and the target segment of the
    request uri is the empty string; only an absent [collections] has
    ['_all'] stored on [searchOpts]. *)
Theorem search_empty_collections_target
        (stored : option options) (rest : options) :
  given (mergeOptions stored) "prefix" = None ->
  snd (search {| collections := Some []; others := rest |} stored) =
  Ok {| searchUri := makeDomainUri (mergeOptions stored) ++ "/" ++ "" ++ searchSuffix;
        searchArg := {| collections := Some []; others := rest |} |} /\
  snd (resolveCollections (lookup "prefix" (mergeOptions stored))
                          {| collections := None; others := rest |}) =
  {| collections := Some ["_all"]; others := rest |}.
Proof.
  intros P. rewrite search_unfold.
  unfold resolveCollections. unfold given in P. rewrite P. simpl.
  split; reflexivity.
Qed.

(** C5: with a prefix [p] configured, a non-empty [collections] list
    resolves to its names, in order, each with [p ++ "-"] in front, and
    an empty or absent one resolves to the single target [p ++ "*"];
    the request is built against these targets joined by commas. *)
Theorem search_prefixed_targets
        (stored : option options) (so : searchOpts) (p : string) :
  given (mergeOptions stored) "prefix" = Some p ->
  let resolved := fst (resolveCollections (lookup "prefix" (mergeOptions stored)) so) in
  (forall c cs,
      collections so = Some (c :: cs) ->
      resolved = Some (map (fun name => p ++ "-" ++ name) (c :: cs))) /\
  (collections so = None \/ collections so = Some [] ->
   resolved = Some [p ++ "*"]) /\
  exists targets,
    resolved = Some targets /\
    snd (search so stored) =
    Ok {| searchUri := makeDomainUri (mergeOptions stored) ++ "/" ++
                       String.concat "," targets ++ searchSuffix;
          searchArg := so |}.
Proof.
  intros P resolved. subst resolved. rewrite search_unfold.
  unfold resolveCollections. unfold given in P. rewrite P. simpl.
  destruct (collections so) as [[| c cs] |]; simpl.
  - split; [intros c cs [=] |].
    split; [reflexivity |]. eexists; split; reflexivity.
  - split; [intros c' cs' [= <- <-]; reflexivity |].
    split; [intros [[=] | [=]] |]. eexists; split; reflexivity.
  - split; [intros c cs [=] |].
    split; [reflexivity |]. eexists; split; reflexivity.
Qed.
End SearchFacts.

Lemma search_without_collections_throws_witness :
  given (mergeOptions (Helpers := localHelpers) None) "prefix" = None /\
  search (H := localHelpers) {| collections := None; others := [] |} None =
  (Some (mergeOptions (Helpers := localHelpers) None), Throw TypeError).
Proof.
  split; [reflexivity |].
  apply (search_without_collections_throws (H := localHelpers) None []).
  reflexivity.
Defined.

Lemma search_empty_collections_target_witness :
  given (mergeOptions (Helpers := localHelpers) None) "prefix" = None /\
  snd (search (H := localHelpers) {| collections := Some []; others := [] |} None) =
  Ok {| searchUri := "localhost:9200//_search?search_type=dfs_query_then_fetch&preference=_primary_first";
        searchArg := {| collections := Some []; others := [] |} |}.
Proof.
  split; [reflexivity |].
  apply (search_empty_collections_target (H := localHelpers) None []).
  reflexivity.
Defined.

Lemma search_prefixed_targets_witness :
  given (mergeOptions (Helpers := localHelpers) (Some [("prefix", "qa")])) "prefix" = Some "qa" /\
  fst (resolveCollections
         (lookup "prefix" (mergeOptions (Helpers := localHelpers) (Some [("prefix", "qa")])))
         {| collections := Some ["users"; "orders"]; others := [] |}) =
  Some ["qa-users"; "qa-orders"].
Proof.
  split; [reflexivity |].
  apply (proj1 (search_prefixed_targets (H := localHelpers) (Some [("prefix", "qa")])
                  {| collections := Some ["users"; "orders"]; others := [] |} "qa" eq_refl)
           "users" ["orders"]).
  reflexivity.
Defined.

(** ** Request uris, configuration, notifications, attach-time fields *)

Section PluginFacts.
Context {H : Helpers}.

(** C7: the uri of a model's own search is
    [{host}:{port}/{index}/{type}] followed by the fixed search suffix;
    the uri of a search across collections, whenever one is built, is
    [{host}:{port}/] followed by the resolved targets joined by commas
    and the same suffix, and none is built only when the local
    [collections] is [undefined]. *)
Theorem search_uri_shape :
  (forall (cl : closure) (this : doc) (so : searchOpts),
      let o := url (mergeModelOptions (cl_options cl) this) in
      snd (statics_search cl this so) =
      SearchCall
        {| searchUri :=
             field o "host" ++ ":" ++ field o "port" ++ "/" ++
             field o "index" ++ "/" ++ field o "type" ++
             "/_search?search_type=dfs_query_then_fetch&preference=_primary_first";
           searchArg := so |}) /\
  (forall (so : searchOpts) (stored : option options),
      let o := mergeOptions stored in
      match snd (search so stored) with
      | Ok r =>
          exists targets,
            fst (resolveCollections (lookup "prefix" o) so) = Some targets /\
            searchUri r =
            field o "host" ++ ":" ++ field o "port" ++ "/" ++
            String.concat "," targets ++
            "/_search?search_type=dfs_query_then_fetch&preference=_primary_first"
      | Throw _ => fst (resolveCollections (lookup "prefix" o) so) = None
      end).
Proof.
  split.
  - intros cl this so o. subst o.
    unfold statics_search, makeTypeUri, makeDomainUri, searchSuffix.
    cbn [snd]. rewrite !append_assoc. reflexivity.
  - intros so stored o. subst o. rewrite search_unfold. cbn [snd].
    destruct (fst (resolveCollections _ so)) as [targets |]; [| reflexivity].
    exists targets. split; [reflexivity |]. cbn [searchUri].
    unfold makeDomainUri, searchSuffix.
    rewrite !append_assoc. reflexivity.
Qed.

(** What [config] leaves in [elasticUrlOptions] is made from the
    argument of that call alone. *)
Lemma config_result (opts : options) (stored : option options) :
  config opts stored = Some (mergeOptions (Some opts)).
Proof.
  reflexivity.
Qed.





Lemma step_keeps_fields (cl : closure) (ev : event) :
  cl_indexedFields (fst (step cl ev)) = cl_indexedFields cl.
Proof.
  destruct ev; reflexivity.
Qed.

Lemma step_reuses (cl : closure) (ev : event) :
  reusesFields (cl_indexedFields cl) ev (snd (step cl ev)).
Proof.
  destruct ev as [this | this so | this | this | this | tree]; simpl; auto.
  - eexists. eexists. split; reflexivity.
  - eexists. split; [reflexivity |]. split; reflexivity.
Qed.

Lemma run_events (evs : list event) :
  forall cl, map fst (run cl evs) = evs.
Proof.
  induction evs as [| ev rest IH]; intros cl; simpl; [reflexivity |].
  destruct (step cl ev) as [cl' eff]. simpl. rewrite IH. reflexivity.
Qed.

Lemma run_reuses (evs : list event) :
  forall cl ev eff,
    In (ev, eff) (run cl evs) -> reusesFields (cl_indexedFields cl) ev eff.
Proof.
  induction evs as [| ev' rest IH]; intros cl ev eff I; simpl in I.
  - destruct I.
  - pose proof (step_keeps_fields cl ev') as K.
    pose proof (step_reuses cl ev') as S.
    destruct (step cl ev') as [cl' eff']. simpl in K, S.
    destruct I as [E | I].
    + injection E as <- <-. exact S.
    + rewrite <- K. exact (IH cl' ev eff I).
Qed.

(** C8: attaching the plugin evaluates [getIndexedFields] on the schema
    as it is then, and fails exactly when that fails.  Whatever happens
    afterwards (saves, removals, syncs, searches, changes to the
    schema's tree), every event has its effect, every save is answered
    by a call of [index] and every sync by a call of [sync], and each of
    these calls gets the field list computed at attach time, not one of
    the tree as it is when the call is made. *)
Theorem indexedFields_fixed_at_attach
        (schema : object) (opts : option modelOptions) :
  match elmongo schema opts with
  | Ok cl =>
      getIndexedFields schema = Ok (cl_indexedFields cl) /\
      forall evs,
        map fst (run cl evs) = evs /\
        forall ev eff,
          In (ev, eff) (run cl evs) ->
          reusesFields (cl_indexedFields cl) ev eff
  | Throw e => getIndexedFields schema = Throw e
  end.
Proof.
  unfold elmongo.
  destruct (getIndexedFields schema) as [fields | e]; simpl; [| reflexivity].
  split; [reflexivity |].
  intros evs. split; [apply run_events |].
  intros ev eff I. exact (run_reuses evs _ ev eff I).
Qed.
End PluginFacts.

(** C3 at the failing input: whatever the helpers are, a second call of
    [config] leaves the options made from its own argument alone, so
    nothing of the first call remains.  With host, port and prefix
    configured first and only a host second, the prefix is gone and the
    port is the built-in one again. *)
Theorem config_second_call_discards_first :
  (forall (H : Helpers) (first second : options) (stored : option options),
      config second (config first stored) = Some (mergeOptions (Some second))) /\
  let first := [("host", "es1"); ("port", "9201"); ("prefix", "qa")] in
  let second := [("host", "es2")] in
  let once := config (H := localHelpers) first None in
  let twice := config (H := localHelpers) second once in
  once = Some [("host", "es1"); ("port", "9201"); ("prefix", "qa")] /\
  lookup "prefix" second = None /\
  lookup "port" second = None /\
  twice = Some [("host", "es2"); ("port", "9200")].
Proof.
  split.
  - intros H first second stored. apply config_result.
  - repeat split.
Qed.



Lemma indexedFields_fixed_at_attach_witness :
  let cl := {| cl_schema := person_tree; cl_options := None;
               cl_indexedFields := ["name"] |} in
  let evs := [SchemaChanged (H := localHelpers) article_tree;
              Saved (H := localHelpers) "p1"] in
  let eff := IndexCall (H := localHelpers) "p1"
               {| url := [("host", "localhost"); ("port", "9200")];
                  indexedFields := Some ["name"] |} in
  elmongo person_tree None = Ok cl /\
  getIndexedFields article_tree = Ok ["title"; "tags"; "meta"] /\
  In (Saved (H := localHelpers) "p1", eff) (run cl evs) /\
  reusesFields ["name"] (Saved (H := localHelpers) "p1") eff.
Proof.
  intros cl evs eff.
  assert (I : In (Saved (H := localHelpers) "p1", eff) (run cl evs)).
  { right. left. reflexivity. }
  split; [reflexivity |]. split; [reflexivity |]. split; [exact I |].
  exact (proj2 (proj2 (indexedFields_fixed_at_attach (H := localHelpers)
                         person_tree None) evs)
               (Saved (H := localHelpers) "p1") eff I).
Defined.

(** * Further properties of the code *)

(** ** getIndexedFields *)

Lemma In_key_lookup (A : Type) (k : string) (o : list (string * A)) :
  In k (map fst o) -> exists v, lookup k o = Some v.
Proof.
  induction o as [| [k' v'] rest IH]; simpl; [intros [] |].
  intros I. destruct (String.eqb k k') eqn:E.
  - exists v'. reflexivity.
  - destruct I as [<- | I]; [| exact (IH I)].
    rewrite String.eqb_refl in E. discriminate E.
Qed.

(** X1: the returned fields are top-level keys of the schema, in the
    order of the schema and each as often as the schema lists it; a
    schema without repeated keys gives a list without repeated fields. *)
Theorem getIndexedFields_keeps_order (tree : object) (fields : list string) :
  getIndexedFields tree = Ok fields ->
  (exists keep, fields = filter keep (map fst tree)) /\
  (forall k, In k fields -> In k (map fst tree)) /\
  (NoDup (map fst tree) -> NoDup fields).
Proof.
  rewrite getIndexedFields_spec.
  destruct (schema_ok tree); [| discriminate].
  intros [= <-]. split; [eexists; reflexivity |]. split.
  - intros k I. apply filter_In in I. exact (proj1 I).
  - apply NoDup_filter.
Qed.

Lemma getIndexedFields_keeps_order_witness :
  getIndexedFields person_tree = Ok ["name"] /\
  (forall k, In k ["name"] -> In k (map fst person_tree)).
Proof.
  split; [reflexivity |].
  apply (getIndexedFields_keeps_order person_tree ["name"]). reflexivity.
Defined.

Lemma readable_false (decl : value) :
  readable decl = false <->
  defined decl = false \/
  exists props key,
    decl = VObject props /\ flagged (VObject props) = false /\
    In key (map fst props) /\ defined (prop props key) = false.
Proof.
  unfold readable. split.
  - destruct decl as [| | b | n | s | props | props]; simpl;
      try discriminate; try (intros _; left; reflexivity).
    destruct (flagged (VObject props)) eqn:F; simpl; [discriminate |].
    intros N. right.
    assert (E : existsb (fun key => negb (defined (prop props key))) (map fst props) = true).
    { clear F. induction (map fst props) as [| key rest IH]; simpl in *; [discriminate |].
      destruct (defined (prop props key)); simpl in *; [exact (IH N) | reflexivity]. }
    apply existsb_exists in E. destruct E as [key [I D]].
    exists props, key. repeat split; try assumption.
    destruct (defined (prop props key)); [discriminate D | reflexivity].
  - intros [D | [props [key [-> [F [I D]]]]]].
    + rewrite D. reflexivity.
    + simpl. rewrite F. simpl.
      destruct (forallb _ _) eqn:A; [| reflexivity].
      rewrite forallb_forall in A. specialize (A key I). simpl in A.
      congruence.
Qed.

(** X2: [getIndexedFields] throws a [TypeError] exactly when some
    top-level declaration is [null] or [undefined], or some object
    declaration without the flag holds [null] or [undefined] under one
    of its keys; otherwise it returns. *)
Theorem getIndexedFields_throws_iff (tree : object) :
  getIndexedFields tree = Throw TypeError <->
  exists k,
    In k (map fst tree) /\
    (defined (prop tree k) = false \/
     exists props key,
       prop tree k = VObject props /\ flagged (VObject props) = false /\
       In key (map fst props) /\ defined (prop props key) = false).
Proof.
  rewrite getIndexedFields_spec. unfold schema_ok. split.
  - destruct (forallb _ _) eqn:A; [discriminate |]. intros _.
    assert (E : existsb (fun k => negb (readable (prop tree k))) (map fst tree) = true).
    { induction (map fst tree) as [| k rest IH]; simpl in *; [discriminate |].
      destruct (readable (prop tree k)); simpl in *; [exact (IH A) | reflexivity]. }
    apply existsb_exists in E. destruct E as [k [I R]].
    exists k. split; [exact I |].
    apply readable_false. destruct (readable (prop tree k)); [discriminate R | reflexivity].
  - intros [k [I R]]. apply readable_false in R.
    destruct (forallb _ _) eqn:A; [| reflexivity].
    rewrite forallb_forall in A. specialize (A k I). simpl in A. congruence.
Qed.

(** X3: on a readable schema in which nothing is flagged, every
    top-level key is returned, in order. *)
Theorem getIndexedFields_without_flags (tree : object) :
  schema_ok tree = true ->
  flagFree tree ->
  getIndexedFields tree = Ok (map fst tree).
Proof.
  intros W F. rewrite getIndexedFields_spec, W. f_equal.
  assert (S : forall k, In k (map fst tree) -> selected (prop tree k) = true).
  { intros k I. destruct (In_key_lookup _ _ _ I) as [decl L].
    rewrite (lookup_prop _ _ _ L). destruct (F k decl L) as [Fd Fs].
    unfold selected. rewrite Fd. simpl.
    destruct decl as [| | b | n | s | props | props]; try reflexivity.
    simpl. unfold someKeyFlagged. simpl.
    destruct (existsb _ _) eqn:E; [| reflexivity].
    apply existsb_exists in E. destruct E as [key [Ik Fk]].
    rewrite (Fs props key eq_refl Ik) in Fk. discriminate Fk. }
  induction (map fst tree) as [| k rest IH]; simpl; [reflexivity |].
  rewrite (S k (or_introl eq_refl)). f_equal.
  apply IH. intros k' I. apply S. right. exact I.
Qed.

Lemma article_tree_flagFree : flagFree article_tree.
Proof.
  intros k decl L. simpl in L.
  repeat match type of L with
         | (if ?c then _ else _) = _ => destruct c
         end;
    try discriminate L; injection L as <-; (split; [reflexivity |]);
    intros props key E I; try discriminate E; injection E as <-;
    simpl in I; destruct I as [<- | []]; reflexivity.
Qed.

Lemma getIndexedFields_without_flags_witness :
  schema_ok article_tree = true /\
  getIndexedFields article_tree = Ok ["title"; "tags"; "meta"].
Proof.
  split; [reflexivity |].
  apply (getIndexedFields_without_flags article_tree).
  - reflexivity.
  - exact article_tree_flagFree.
Defined.

(** X4: whether a field is selected depends on its own declaration
    only: two schemas that declare a field alike agree on it, whatever
    else they hold. *)
Theorem getIndexedFields_local
        (tree1 tree2 : object) (fields1 fields2 : list string)
        (k : string) (decl : value) :
  getIndexedFields tree1 = Ok fields1 ->
  getIndexedFields tree2 = Ok fields2 ->
  lookup k tree1 = Some decl ->
  lookup k tree2 = Some decl ->
  (In k fields1 <-> In k fields2).
Proof.
  intros E1 E2 L1 L2.
  rewrite (getIndexedFields_In _ _ _ _ E1 L1), (getIndexedFields_In _ _ _ _ E2 L2).
  reflexivity.
Qed.

Lemma getIndexedFields_local_witness :
  getIndexedFields (("name", String_ctor) :: article_tree) =
  Ok ["name"; "title"; "tags"; "meta"] /\
  (In "name" ["name"] <-> In "name" ["name"; "title"; "tags"; "meta"]).
Proof.
  split; [reflexivity |].
  apply (getIndexedFields_local person_tree (("name", String_ctor) :: article_tree)
           ["name"] ["name"; "title"; "tags"; "meta"] "name" String_ctor);
    reflexivity.
Defined.

(** ** elmongo.search *)

Lemma prefix_append (p s : string) : String.prefix p (p ++ s) = true.
Proof.
  induction p as [| a p IH]; simpl.
  - destruct s; reflexivity.
  - destruct (Ascii.ascii_dec a a) as [_ | N]; [exact IH | contradiction N; reflexivity].
Qed.

Lemma given_nonempty (o : options) (k p : string) :
  given o k = Some p -> p <> "".
Proof.
  unfold given, or_else.
  destruct (lookup k o) as [s |]; [| discriminate].
  destruct (String.eqb s "") eqn:E; [discriminate |].
  intros [= <-]. apply String.eqb_neq. exact E.
Qed.

Section GatewayFacts.
Context {H : Helpers}.

(** X5: with no prefix configured and [collections] a list, the request
    goes to the listed names as they are, joined by commas, and
    [searchOpts] is handed on unchanged. *)
Theorem search_plain_targets
        (stored : option options) (so : searchOpts) (l : list string) :
  given (mergeOptions stored) "prefix" = None ->
  collections so = Some l ->
  snd (search so stored) =
  Ok {| searchUri := makeDomainUri (mergeOptions stored) ++ "/" ++
                     String.concat "," l ++ searchSuffix;
        searchArg := so |}.
Proof.
  intros P C. rewrite search_unfold.
  unfold resolveCollections. unfold given in P. rewrite P, C. reflexivity.
Qed.

(** X6: whenever [search] builds a request, the [searchOpts] it hands to
    the helper is the caller's, unchanged: the prefixed names go into
    the uri only. *)
Theorem search_keeps_searchOpts
        (stored : option options) (so : searchOpts) (r : searchRequest) :
  snd (search so stored) = Ok r -> searchArg r = so.
Proof.
  rewrite search_unfold. unfold resolveCollections. cbn [snd].
  destruct (or_else _ None) as [p |];
    destruct (collections so) as [[| c cs] |]; cbn [fst snd];
    try discriminate; intros [= <-]; reflexivity.
Qed.

(** X7: [search] throws, always a [TypeError], exactly when no prefix is
    configured and [collections] is absent. *)
Theorem search_throws_iff (stored : option options) (so : searchOpts) :
  (exists e, snd (search so stored) = Throw e) <->
  given (mergeOptions stored) "prefix" = None /\ collections so = None.
Proof.
  rewrite search_unfold. unfold resolveCollections, given. cbn [snd].
  destruct (or_else _ None) as [p |];
    destruct (collections so) as [[| c cs] |]; cbn [fst snd];
    split;
    try (intros [e E]; discriminate E);
    try (intros [E1 E2]; discriminate);
    try (intros _; split; reflexivity);
    try (intros _; exists TypeError; reflexivity).
Qed.

(** X8: with a prefix configured, [search] always has at least one
    target, each target begins with the prefix, which is not empty, and
    a non-empty [collections] list gives as many targets as it has
    names. *)
Theorem search_targets_in_namespace
        (stored : option options) (so : searchOpts) (p : string) :
  given (mergeOptions stored) "prefix" = Some p ->
  p <> "" /\
  exists targets,
    fst (resolveCollections (lookup "prefix" (mergeOptions stored)) so) = Some targets /\
    targets <> [] /\
    Forall (fun t => String.prefix p t = true) targets /\
    (forall c cs, collections so = Some (c :: cs) ->
                  length targets = length (c :: cs)).
Proof.
  intros P. split; [exact (given_nonempty _ _ _ P) |].
  unfold resolveCollections. unfold given in P. rewrite P.
  destruct (collections so) as [[| c cs] |]; cbn [fst].
  - exists [p ++ "*"]. repeat split; try discriminate.
    constructor; [apply prefix_append | constructor].
  - exists (map (fun collection => p ++ "-" ++ collection) (c :: cs)).
    repeat split; try discriminate.
    + apply Forall_forall. intros t I. apply in_map_iff in I.
      destruct I as [name [<- _]]. apply prefix_append.
    + intros c' cs' [= <- <-]. apply length_map.
  - exists [p ++ "*"]. repeat split; try discriminate.
    constructor; [apply prefix_append | constructor].
Qed.
End GatewayFacts.

Lemma search_plain_targets_witness :
  snd (search (H := localHelpers)
              {| collections := Some ["users"; "orders"]; others := [] |} None) =
  Ok {| searchUri := "localhost:9200/users,orders/_search?search_type=dfs_query_then_fetch&preference=_primary_first";
        searchArg := {| collections := Some ["users"; "orders"]; others := [] |} |}.
Proof.
  apply (search_plain_targets (H := localHelpers) None
           {| collections := Some ["users"; "orders"]; others := [] |}
           ["users"; "orders"]); reflexivity.
Defined.

Lemma search_keeps_searchOpts_witness :
  let so := {| collections := Some ["users"]; others := [("query", "ann")] |} in
  exists r,
    snd (search (H := localHelpers) so (Some [("prefix", "qa")])) = Ok r /\
    searchArg r = so.
Proof.
  intros so. eexists. split; [reflexivity |].
  apply (search_keeps_searchOpts (H := localHelpers) (Some [("prefix", "qa")]) so).
  reflexivity.
Defined.

Lemma search_targets_in_namespace_witness :
  given (mergeOptions (Helpers := localHelpers) (Some [("prefix", "qa")])) "prefix" = Some "qa" /\
  "qa" <> "".
Proof.
  split; [reflexivity |].
  apply (search_targets_in_namespace (H := localHelpers) (Some [("prefix", "qa")])
           {| collections := None; others := [] |} "qa").
  reflexivity.
Defined.

(** ** The loop of elmongo.search.config *)

Lemma assign_keys (k v : string) (o : options) :
  In k (map fst o) -> map fst (assign k v o) = map fst o.
Proof.
  induction o as [| [k' v'] rest IH]; simpl; [intros [] |].
  intros I. destruct (String.eqb k k') eqn:E; simpl; [reflexivity |].
  f_equal. apply IH. destruct I as [<- | I]; [| exact I].
  rewrite String.eqb_refl in E. discriminate E.
Qed.

Lemma lookup_assign_same (k v : string) (o : options) :
  lookup k (assign k v o) = Some v.
Proof.
  induction o as [| [k' v'] rest IH]; simpl.
  - rewrite String.eqb_refl. reflexivity.
  - destruct (String.eqb k k') eqn:E; simpl; rewrite E; [reflexivity | exact IH].
Qed.

Lemma lookup_assign_other (k k' v : string) (o : options) :
  String.eqb k' k = false -> lookup k' (assign k v o) = lookup k' o.
Proof.
  intros N. induction o as [| [k0 v0] rest IH]; simpl.
  - rewrite N. reflexivity.
  - destruct (String.eqb k k0) eqn:E; simpl.
    + apply String.eqb_eq in E. subst k0. rewrite N. reflexivity.
    + destruct (String.eqb k' k0); [reflexivity | exact IH].
Qed.

Lemma overwrite_present (opts cur : options) (key old : string) :
  lookup key cur = Some old ->
  overwrite opts cur key = assign key (preferred opts key old) cur.
Proof.
  unfold overwrite, preferred, given, or_else. intros ->.
  destruct (lookup key opts) as [s |]; [| reflexivity].
  destruct (String.eqb s ""); reflexivity.
Qed.

Lemma preferred_idem (opts : options) (key old : string) :
  preferred opts key (preferred opts key old) = preferred opts key old.
Proof.
  unfold preferred. destruct (given opts key); reflexivity.
Qed.

Lemma fold_overwrite (opts : options) (keys : list string) :
  forall cur,
    (forall k, In k keys -> In k (map fst cur)) ->
    map fst (fold_left (overwrite opts) keys cur) = map fst cur /\
    forall k,
      lookup k (fold_left (overwrite opts) keys cur) =
      match lookup k cur with
      | Some old =>
          Some (if existsb (String.eqb k) keys then preferred opts k old else old)
      | None => None
      end.
Proof.
  induction keys as [| key rest IH]; intros cur Hin; simpl.
  - split; [reflexivity |]. intros k. destruct (lookup k cur); reflexivity.
  - destruct (In_key_lookup _ _ _ (Hin key (or_introl eq_refl))) as [old L].
    rewrite (overwrite_present opts _ _ _ L).
    assert (K : map fst (assign key (preferred opts key old) cur) = map fst cur).
    { apply assign_keys. exact (lookup_Some_key _ _ _ _ L). }
    destruct (IH (assign key (preferred opts key old) cur)) as [IHk IHv].
    { intros k I. rewrite K. apply Hin. right. exact I. }
    split; [rewrite IHk; exact K |].
    intros k. rewrite IHv.
    destruct (String.eqb k key) eqn:E.
    + apply String.eqb_eq in E. subst k.
      rewrite lookup_assign_same, L. simpl.
      destruct (existsb _ rest); [rewrite preferred_idem |]; reflexivity.
    + rewrite (lookup_assign_other _ _ _ _ E). simpl. reflexivity.
Qed.

(** X9: the loop of [config] keeps the keys of the stored object and
    their order, sets every key for which the call gives a non-empty
    value to that value, leaves the other values as they were, and adds
    no key the stored object did not have. *)
Theorem config_loop_overwrites (opts cur : options) :
  map fst (overwriteAll opts cur) = map fst cur /\
  (forall k old,
      lookup k cur = Some old ->
      lookup k (overwriteAll opts cur) = Some (preferred opts k old)) /\
  (forall k, lookup k cur = None -> lookup k (overwriteAll opts cur) = None).
Proof.
  unfold overwriteAll.
  destruct (fold_overwrite opts (map fst cur) cur (fun k I => I)) as [K V].
  split; [exact K |]. split.
  - intros k old L. rewrite V, L.
    assert (E : existsb (String.eqb k) (map fst cur) = true).
    { apply existsb_exists. exists k. split.
      - exact (lookup_Some_key _ _ _ _ L).
      - apply String.eqb_refl. }
    rewrite E. reflexivity.
  - intros k L. rewrite V, L. reflexivity.
Qed.

Lemma config_loop_overwrites_witness :
  let cur := [("host", "es1"); ("port", "9201"); ("prefix", "qa")] in
  let opts := [("host", "es2"); ("port", ""); ("index", "people")] in
  lookup "port" cur = Some "9201" /\
  lookup "port" (overwriteAll opts cur) = Some "9201".
Proof.
  intros cur opts. split; [reflexivity |].
  apply (proj1 (proj2 (config_loop_overwrites opts cur)) "port" "9201").
  reflexivity.
Defined.

(** ** The plugin after changes to the schema *)

Section RunFacts.
Context {H : Helpers}.

Lemma after_schema (evs : list event) :
  forall cl, cl_schema (after cl evs) = lastTree (cl_schema cl) evs.
Proof.
  unfold after, lastTree.
  induction evs as [| ev rest IH]; intros cl; simpl; [reflexivity |].
  rewrite IH. destruct ev; reflexivity.
Qed.

Lemma after_fields (evs : list event) :
  forall cl, cl_indexedFields (after cl evs) = cl_indexedFields cl.
Proof.
  unfold after.
  induction evs as [| ev rest IH]; intros cl; simpl; [reflexivity |].
  rewrite IH. destruct ev; reflexivity.
Qed.

(** X10: after any sequence of events, [statics.sync] hands [sync] the
    schema with the tree of its latest change, together with the field
    list computed when the plugin was attached: fields of a tree changed
    after attaching are not taken into account. *)
Theorem sync_current_tree_attach_fields
        (cl : closure) (evs : list event) (this : doc) :
  exists opts,
    snd (step (after cl evs) (Synced this)) =
    SyncCall this (lastTree (cl_schema cl) evs) opts /\
    indexedFields opts = Some (cl_indexedFields cl).
Proof.
  eexists. split.
  - simpl. unfold statics_sync. cbn [snd].
    rewrite after_schema, after_fields. reflexivity.
  - reflexivity.
Qed.
End RunFacts.
